(** * Todo backend: task ownership, completion bookkeeping, signup and tokens

    A shallow embedding of the request handlers of the FastAPI todo backend
    ([src/api/tasks.py], [src/api/auth.py], [src/core/security.py]) together
    with the records they exchange, followed by the properties of the
    handlers.

    The database is a pair of tables keyed by their primary key, the wall
    clock and the random source are oracles indexed by the number of
    readings taken so far, and a handler is a function from the state of the
    world to an outcome (a value or a raised exception) and a new state. *)

From stdpp Require Import base gmap list strings.

Local Open Scope string_scope.

(** ** Instants *)

(** [datetime] and [timedelta] count microseconds, a [datetime] from
    0001-01-01 00:00:00, the first instant the type holds. *)
Definition datetime : Type := Z.
Definition timedelta : Type := Z.
Bind Scope Z_scope with datetime timedelta.
Definition timedelta_seconds (n : Z) : timedelta := (n * 1000000)%Z.

(** The last instant a [datetime] holds, 9999-12-31 23:59:59.999999. *)
Definition datetime_max : datetime := 315537897599999999.
Definition in_datetime_range (d : Z) : Prop := (0 ≤ d ≤ datetime_max)%Z.

#[global] Instance in_datetime_range_dec d : Decision (in_datetime_range d).
Proof. unfold in_datetime_range. apply _. Defined.

(** ** Records *)

(** [src/models/user.py], class [User] (with the fields of [UserBase]). *)
Module User.
Record t : Type := mk {
  email : string;
  name : string;
  created_at : option datetime;
  updated_at : option datetime;
  id : string;
  password_hash : string
}.
End User.

(** Modelled from the spec: [src/models/task.py] (class [Task]) is not part
    of the sources at hand.  The fields are those the handlers of
    [src/api/tasks.py] read and write; the spec's data model gives their
    kinds: a numeric storage-assigned identity, a title, an optional
    description, the [completed] flag, the owner's identity, the two
    timestamps and the nullable [completed_at]. *)
Module Task.
Record t : Type := mk {
  id : Z;
  title : string;
  description : option string;
  completed : bool;
  user_id : string;
  created_at : datetime;
  updated_at : datetime;
  completed_at : option datetime
}.

Definition set_title (v : string) (x : t) : t :=
  mk (id x) v (description x) (completed x) (user_id x)
     (created_at x) (updated_at x) (completed_at x).
Definition set_description (v : option string) (x : t) : t :=
  mk (id x) (title x) v (completed x) (user_id x)
     (created_at x) (updated_at x) (completed_at x).
Definition set_completed (v : bool) (x : t) : t :=
  mk (id x) (title x) (description x) v (user_id x)
     (created_at x) (updated_at x) (completed_at x).
Definition set_updated_at (v : datetime) (x : t) : t :=
  mk (id x) (title x) (description x) (completed x) (user_id x)
     (created_at x) v (completed_at x).
Definition set_completed_at (v : option datetime) (x : t) : t :=
  mk (id x) (title x) (description x) (completed x) (user_id x)
     (created_at x) (updated_at x) v.
End Task.

(** [src/schemas/task.py], class [TaskCreate] (with the fields of
    [TaskBase]): a client may send [completed]. *)
Module TaskCreate.
Record t : Type := mk {
  title : string;
  description : option string;
  completed : bool
}.
End TaskCreate.

(** [src/schemas/task.py], class [TaskUpdate]: every field is optional and
    [None] when the request body leaves it out (or sends null). *)
Module TaskUpdate.
Record t : Type := mk {
  title : option string;
  description : option string;
  completed : option bool
}.
End TaskUpdate.

(** [src/schemas/task.py], class [TaskResponse]. *)
Module TaskResponse.
Record t : Type := mk {
  id : Z;
  title : string;
  description : option string;
  completed : bool;
  user_id : string;
  created_at : datetime;
  updated_at : datetime;
  completed_at : option datetime
}.
End TaskResponse.

(** [src/schemas/task.py], class [TaskListResponse]. *)
Module TaskListResponse.
Record t : Type := mk {
  tasks : list TaskResponse.t;
  total : nat;
  pending : nat;
  completed : nat
}.
End TaskListResponse.

(** ** Exceptions and outcomes *)

(** The subclasses of [jwt.PyJWTError] that [jwt.decode] raises. *)
Inductive jwt_error : Type :=
  | InvalidSignatureError
  | ExpiredSignatureError
  | DecodeError
  | InvalidAlgorithmError
  | ImmatureSignatureError
  | InvalidKeyError.

Inductive exn : Type :=
  | HTTPException (status_code : Z) (detail : string)
  | MultipleResultsFound
  | IntegrityError
  | PyJWTError (e : jwt_error)
  | OtherError (what : string).

Definition HTTP_400_BAD_REQUEST : Z := 400.
Definition HTTP_404_NOT_FOUND : Z := 404.

Inductive outcome (A : Type) : Type :=
  | Return (a : A)
  | Raise (e : exn).
Arguments Return {A} a.
Arguments Raise {A} e.

(** ** The world a handler runs in *)

Record World : Type := mkWorld {
  task_table : gmap Z Task.t;        (* table [task], keyed by [id] *)
  task_id_seq : Z;                   (* next identity the storage hands out *)
  user_table : gmap string User.t;   (* table [user], keyed by [id] *)
  ticks : nat;                       (* clock readings taken so far *)
  draws : nat                        (* random draws taken so far *)
}.

Definition with_task_table (f : gmap Z Task.t → gmap Z Task.t) (w : World) : World :=
  mkWorld (f (task_table w)) (task_id_seq w) (user_table w) (ticks w) (draws w).
Definition with_user_table (f : gmap string User.t → gmap string User.t) (w : World) : World :=
  mkWorld (task_table w) (task_id_seq w) (f (user_table w)) (ticks w) (draws w).

(** A handler: state in, outcome and state out.  A raised exception skips
    the rest of the handler. *)
Definition Io (A : Type) : Type := World → outcome A * World.

#[global] Instance Io_ret : MRet Io := λ A a w, (Return a, w).
#[global] Instance Io_bind : MBind Io := λ A B k m w,
  match m w with
  | (Return a, w') => k a w'
  | (Raise e, w') => (Raise e, w')
  end.

Definition raise {A : Type} (e : exn) : Io A := λ w, (Raise e, w).

(** A call that answers or raises without touching the world. *)
Definition call {A : Type} (o : outcome A) : Io A := λ w, (o, w).

(** [datetime + timedelta]: [OverflowError] when the sum leaves the range
    of [datetime]. *)
Definition datetime_add (d : datetime) (delta : timedelta) : outcome datetime :=
  if bool_decide (in_datetime_range (d + delta))
  then Return (d + delta)%Z
  else Raise (OtherError "OverflowError").

(** [len]. *)
Definition len {A : Type} (l : list A) : nat := length l.

(** [result.scalar_one_or_none()]: no row gives [None], one row gives it,
    more rows raise. *)
Definition scalar_one_or_none {A : Type} (rows : list A) : Io (option A) :=
  match rows with
  | [] => mret None
  | [r] => mret (Some r)
  | _ => raise MultipleResultsFound
  end.

(** ** Task storage *)

(** [select(Task).where(and_(Task.id == task_id, Task.user_id == uid))]
    executed in the session: [id] is the primary key, so the row, if any, is
    the one stored under [task_id], kept only when its owner is [uid]. *)
Definition select_task_by_id_and_owner (task_id : Z) (uid : string) : Io (list Task.t) :=
  λ w, (Return (match task_table w !! task_id with
                | Some task => if bool_decide (Task.user_id task = uid) then [task] else []
                | None => []
                end), w).

(** [select(Task).where(...)] with a predicate on the rows: all the rows
    the predicate keeps. *)
Definition select_tasks_where (query : Task.t → bool) : Io (list Task.t) :=
  λ w, (Return (filter (λ task, query task = true) (map_to_list (task_table w)).*2), w).

(** [session.commit()] after the attributes of a loaded [task] were
    assigned, and [session.refresh(task)]: the row is written back. *)
Definition session_commit_task (task : Task.t) : Io Task.t :=
  λ w, (Return task, with_task_table (<[Task.id task := task]>) w).

(** [session.delete(task)] and [session.commit()]. *)
Definition session_delete_task (task : Task.t) : Io unit :=
  λ w, (Return tt, with_task_table (delete (Task.id task)) w).

(** Modelled from the spec: the storage assigns the identity of a new row
    (numeric, monotonic); [session.add(task)], [session.commit()] and
    [session.refresh(task)] insert the row under the next identity and load
    it back. *)
Definition session_add_task (new : Z → Task.t) : Io Task.t :=
  λ w, let task := new (task_id_seq w) in
       (Return task,
        mkWorld (<[task_id_seq w := task]> (task_table w)) (task_id_seq w + 1)
                (user_table w) (ticks w) (draws w)).

Definition TaskResponse_of (task : Task.t) : TaskResponse.t :=
  TaskResponse.mk (Task.id task) (Task.title task) (Task.description task)
    (Task.completed task) (Task.user_id task) (Task.created_at task)
    (Task.updated_at task) (Task.completed_at task).

Definition not_found_detail : string :=
  "Task not found or you don't have permission to access it".

(** ** [src/api/tasks.py] *)

Section api_tasks.

(** The wall clock: the [n]-th call of [datetime.utcnow()] returns
    [clock n]. *)
Variable clock : nat → datetime.

Definition utcnow : Io datetime :=
  λ w, (Return (clock (ticks w)),
        mkWorld (task_table w) (task_id_seq w) (user_table w) (S (ticks w)) (draws w)).

(** Modelled from the spec: the constructor [Task(title=, description=,
    completed=, user_id=)] of the absent [src/models/task.py].  The
    timestamps are set to the current instant (one clock reading each,
    [created_at] first, like the [default_factory] fields of [User]) and
    [completed_at] starts as null. *)
Definition Task_init (title : string) (description : option string)
    (completed : bool) (user_id : string) : Io (Z → Task.t) :=
  created ← utcnow;
  updated ← utcnow;
  mret (λ id, Task.mk id title description completed user_id created updated None).

Definition list_tasks (current_user : User.t) (status_filter : option string)
    : Io TaskListResponse.t :=
  let query := λ task, bool_decide (Task.user_id task = User.id current_user) in
  let query :=
    if bool_decide (status_filter = Some "pending") then
      λ task, query task && bool_decide (Task.completed task = false)
    else if bool_decide (status_filter = Some "completed") then
      λ task, query task && bool_decide (Task.completed task = true)
    else query in
  tasks ← select_tasks_where query;
  let total := len tasks in
  let pending := len (filter (λ task, negb (Task.completed task) = true) tasks) in
  let completed := len (filter (λ task, Task.completed task = true) tasks) in
  let task_responses := TaskResponse_of <$> tasks in
  mret (TaskListResponse.mk task_responses total pending completed).

Definition create_task (task_data : TaskCreate.t) (current_user : User.t)
    : Io TaskResponse.t :=
  task ← Task_init (TaskCreate.title task_data) (TaskCreate.description task_data)
                   false (User.id current_user);
  task ← session_add_task task;
  mret (TaskResponse_of task).

Definition get_task (task_id : Z) (current_user : User.t) : Io TaskResponse.t :=
  result ← select_task_by_id_and_owner task_id (User.id current_user);
  task ← scalar_one_or_none result;
  match task with
  | None => raise (HTTPException HTTP_404_NOT_FOUND not_found_detail)
  | Some task => mret (TaskResponse_of task)
  end.

Definition update_task (task_id : Z) (task_data : TaskUpdate.t) (current_user : User.t)
    : Io TaskResponse.t :=
  result ← select_task_by_id_and_owner task_id (User.id current_user);
  task ← scalar_one_or_none result;
  match task with
  | None => raise (HTTPException HTTP_404_NOT_FOUND not_found_detail)
  | Some task =>
    let task := match TaskUpdate.title task_data with
                | Some v => Task.set_title v task
                | None => task
                end in
    let task := match TaskUpdate.description task_data with
                | Some v => Task.set_description (Some v) task
                | None => task
                end in
    task ← match TaskUpdate.completed task_data with
           | Some c =>
             let task := Task.set_completed c task in
             if c && negb (Task.completed task) then
               now ← utcnow; mret (Task.set_completed_at (Some now) task)
             else if negb c then
               mret (Task.set_completed_at None task)
             else mret task
           | None => mret task
           end;
    now ← utcnow;
    let task := Task.set_updated_at now task in
    task ← session_commit_task task;
    mret (TaskResponse_of task)
  end.

Definition toggle_task_completion (task_id : Z) (completed_data : TaskUpdate.t)
    (current_user : User.t) : Io TaskResponse.t :=
  result ← select_task_by_id_and_owner task_id (User.id current_user);
  task ← scalar_one_or_none result;
  match task with
  | None => raise (HTTPException HTTP_404_NOT_FOUND not_found_detail)
  | Some task =>
    task ← match TaskUpdate.completed completed_data with
           | Some c =>
             let task := Task.set_completed c task in
             if c then
               now ← utcnow; mret (Task.set_completed_at (Some now) task)
             else
               mret (Task.set_completed_at None task)
           | None => mret task
           end;
    now ← utcnow;
    let task := Task.set_updated_at now task in
    task ← session_commit_task task;
    mret (TaskResponse_of task)
  end.

Definition delete_task (task_id : Z) (current_user : User.t) : Io (list (string * string)) :=
  result ← select_task_by_id_and_owner task_id (User.id current_user);
  task ← scalar_one_or_none result;
  match task with
  | None => raise (HTTPException HTTP_404_NOT_FOUND not_found_detail)
  | Some task =>
    session_delete_task task;;
    mret [("message", "Task deleted successfully")]
  end.

End api_tasks.

(** ** [src/core/config.py] *)

(** The settings the token code reads. *)
Module Settings.
Record t : Type := mk {
  JWT_SECRET : string;
  JWT_ALGORITHM : string;
  JWT_EXPIRATION : Z
}.

(** The values in force when the environment overrides none. *)
Definition default : t :=
  mk "your-super-secret-jwt-key-here-32+chars" "HS256" 604800.
End Settings.

(** ** [src/core/security.py] *)

(** A value of a token's payload: a string or an instant. *)
Inductive claim : Type :=
  | ClaimStr (s : string)
  | ClaimTime (d : datetime).

Section core_security.

Variable clock : nat → datetime.
Variable settings : Settings.t.

(** The libraries behind the module: [pwd_context.hash] with the salt of
    the [n]-th random draw (a hash, or the exception it raises on a
    password it refuses), [jwt.encode], and [jwt.decode] as it answers at
    the instant of the call (a payload, or the exception it raises). *)
Variable pwd_context_hash : nat → string → outcome string.
Variable jwt_encode : gmap string claim → string → string → string.
Variable jwt_decode : string → string → list string → outcome (gmap string claim).

Definition get_password_hash (password : string) : Io string :=
  λ w, (pwd_context_hash (draws w) password,
        mkWorld (task_table w) (task_id_seq w) (user_table w) (ticks w) (S (draws w))).

(** [if expires_delta:] holds for a delta that is given and not zero; the
    sum with a delta the caller gives can leave the range of [datetime],
    which raises.  The sum of a clock reading and the configured lifetime
    is taken as it is. *)
Definition create_access_token (data : gmap string claim)
    (expires_delta : option timedelta) : Io string :=
  let to_encode := data in
  expire ← match expires_delta with
           | Some delta =>
             if bool_decide (delta ≠ 0%Z)
             then now ← utcnow clock; call (datetime_add now delta)
             else now ← utcnow clock;
                  mret (now + timedelta_seconds (Settings.JWT_EXPIRATION settings))%Z
           | None =>
             now ← utcnow clock;
             mret (now + timedelta_seconds (Settings.JWT_EXPIRATION settings))%Z
           end;
  let to_encode := <["exp" := ClaimTime expire]> to_encode in
  let encoded_jwt :=
    jwt_encode to_encode (Settings.JWT_SECRET settings) (Settings.JWT_ALGORITHM settings) in
  mret encoded_jwt.

(** [try: ... except jwt.PyJWTError: return None]: an exception of that
    family becomes [None], any other goes on to the caller. *)
Definition verify_token (token : string) : outcome (option (gmap string claim)) :=
  match jwt_decode token (Settings.JWT_SECRET settings) [Settings.JWT_ALGORITHM settings] with
  | Return payload => Return (Some payload)
  | Raise (PyJWTError _) => Return None
  | Raise e => Raise e
  end.

End core_security.




(** ** [src/api/auth.py] *)

Module SignupRequest.
Record t : Type := mk {
  email : string;
  password : string;
  full_name : string
}.
End SignupRequest.

Module UserResponse.
Record t : Type := mk {
  id : string;
  email : string;
  name : string
}.
End UserResponse.

Module TokenResponse.
Record t : Type := mk {
  access_token : string;
  token_type : string;
  user : UserResponse.t
}.
End TokenResponse.

(** [select(User).where(...)] executed in the session. *)
Definition select_users_where (query : User.t → bool) : Io (list User.t) :=
  λ w, (Return (filter (λ user, query user = true) (map_to_list (user_table w)).*2), w).

(** [session.add(new_user)], [session.commit()], [session.refresh(new_user)]:
    the row is inserted unless its primary key or its unique [email] is
    taken, which the storage refuses. *)
Definition session_add_user (new_user : User.t) : Io User.t :=
  λ w, if bool_decide (is_Some (user_table w !! User.id new_user)
                       ∨ User.email new_user ∈ User.email <$> (map_to_list (user_table w)).*2)
       then (Raise IntegrityError, w)
       else (Return new_user, with_user_table (<[User.id new_user := new_user]>) w).

Section api_auth.

Variable clock : nat → datetime.
Variable settings : Settings.t.
Variable pwd_context_hash : nat → string → outcome string.
Variable jwt_encode : gmap string claim → string → string → string.

(** [str(uuid.uuid4())] at the [n]-th random draw. *)
Variable uuid4 : nat → string.

Definition new_uuid : Io string :=
  λ w, (Return (uuid4 (draws w)),
        mkWorld (task_table w) (task_id_seq w) (user_table w) (ticks w) (S (draws w))).

(** The constructor [User(email=, name=, password_hash=)]: the fields left
    out take their [default_factory]. *)
Definition User_init (email name password_hash : string) : Io User.t :=
  created ← utcnow clock;
  updated ← utcnow clock;
  id ← new_uuid;
  mret (User.mk email name (Some created) (Some updated) id password_hash).

Definition signup (user_data : SignupRequest.t) : Io TokenResponse.t :=
  result ← select_users_where
             (λ user, bool_decide (User.email user = SignupRequest.email user_data));
  existing_user ← scalar_one_or_none result;
  match existing_user with
  | Some _ => raise (HTTPException HTTP_400_BAD_REQUEST "Email already registered")
  | None =>
    hashed_pw ← get_password_hash pwd_context_hash (SignupRequest.password user_data);
    new_user ← User_init (SignupRequest.email user_data)
                         (SignupRequest.full_name user_data) hashed_pw;
    new_user ← session_add_user new_user;
    access_token ← create_access_token clock settings jwt_encode
                     {["user_id" := ClaimStr (User.id new_user)]} None;
    mret (TokenResponse.mk access_token "bearer"
            (UserResponse.mk (User.id new_user) (User.email new_user) (User.name new_user)))
  end.

End api_auth.

(** [src/api/auth.py], the login route, and [verify_password] of
    [src/core/security.py]. *)

Module LoginRequest.
Record t : Type := mk {
  email : string;
  password : string
}.
End LoginRequest.

Definition HTTP_401_UNAUTHORIZED : Z := 401.

Section api_auth_login.

Variable clock : nat → datetime.
Variable settings : Settings.t.
Variable jwt_encode : gmap string claim → string → string → string.

(** [pwd_context.verify]: whether the password matches the hash, or the
    exception the library raises on a hash it cannot read. *)
Variable pwd_context_verify : string → string → outcome bool.

Definition verify_password (plain_password hashed_password : string) : Io bool :=
  λ w, (pwd_context_verify plain_password hashed_password, w).

(** [if not user or not verify_password(...)]: the password is checked only
    when a user was found. *)
Definition login (user_data : LoginRequest.t) : Io TokenResponse.t :=
  result ← select_users_where
             (λ user, bool_decide (User.email user = LoginRequest.email user_data));
  user ← scalar_one_or_none result;
  match user with
  | None => raise (HTTPException HTTP_401_UNAUTHORIZED "Incorrect email or password")
  | Some user =>
    verified ← verify_password (LoginRequest.password user_data) (User.password_hash user);
    if negb verified then
      raise (HTTPException HTTP_401_UNAUTHORIZED "Incorrect email or password")
    else
      access_token ← create_access_token clock settings jwt_encode
                       {["user_id" := ClaimStr (User.id user)]} None;
      mret (TokenResponse.mk access_token "bearer"
              (UserResponse.mk (User.id user) (User.email user) (User.name user)))
  end.

End api_auth_login.

(** ** Reading a handler's answer *)

Definition result_of {A : Type} (r : outcome A * World) : outcome A := r.1.

(** The 404 every task route answers with. *)
Definition task_not_found {A : Type} (w : World) : outcome A * World :=
  (Raise (HTTPException 404 "Task not found or you don't have permission to access it"), w).

(** The row a task route works on: the one under [task_id], if the caller
    [uid] owns it. *)
Definition owned_task (w : World) (task_id : Z) (uid : string) : option Task.t :=
  match task_table w !! task_id with
  | Some task => if bool_decide (Task.user_id task = uid) then Some task else None
  | None => None
  end.

(** All the rows of an owner. *)
Definition tasks_of_owner (w : World) (uid : string) : list Task.t :=
  filter (λ task, Task.user_id task = uid) (map_to_list (task_table w)).*2.

(** The rows a [status_filter] lets through. *)
Definition passes_status_filter (status_filter : option string) (task : Task.t) : Prop :=
  if bool_decide (status_filter = Some "pending") then Task.completed task = false
  else if bool_decide (status_filter = Some "completed") then Task.completed task = true
  else True.

#[global] Instance passes_status_filter_dec status_filter task :
  Decision (passes_status_filter status_filter task).
Proof. unfold passes_status_filter. repeat case_bool_decide; apply _. Defined.

(** The completion part of a task route's answer. *)
Definition completion_state (r : outcome TaskResponse.t) : option (bool * option datetime) :=
  match r with
  | Return resp => Some (TaskResponse.completed resp, TaskResponse.completed_at resp)
  | Raise _ => None
  end.

(** The three counts of a list answer. *)
Definition counts_of (r : outcome TaskListResponse.t) : option (nat * nat * nat) :=
  match r with
  | Return resp =>
    Some (TaskListResponse.total resp, TaskListResponse.pending resp,
          TaskListResponse.completed resp)
  | Raise _ => None
  end.

(** The [unique=True] of [User.email]: no two rows share an email. *)
Definition unique_emails (w : World) : Prop :=
  NoDup (User.email <$> (map_to_list (user_table w)).*2).

(** Every row of the task table sits under its own [id], the primary
    key. *)
Definition rows_under_own_id (w : World) : Prop :=
  map_Forall (λ k task, Task.id task = k) (task_table w).

(** Some stored user has the email. *)
Definition stored_email (w : World) (email : string) : Prop :=
  email ∈ User.email <$> (map_to_list (user_table w)).*2.

#[global] Instance stored_email_dec w email : Decision (stored_email w email).
Proof. unfold stored_email. apply _. Defined.

(** The 401 the login route answers with. *)
Definition unauthorized (w : World) : outcome TokenResponse.t * World :=
  (Raise (HTTPException 401 "Incorrect email or password"), w).

(** ** Sample data *)

Definition sample_clock : nat → datetime := λ n, (1000 + Z.of_nat n)%Z.

Definition alice : User.t :=
  User.mk "alice@example.com" "Alice" (Some 1%Z) (Some 1%Z) "alice-id" "hash-of-alice".
Definition bob : User.t :=
  User.mk "bob@example.com" "Bob" (Some 2%Z) (Some 2%Z) "bob-id" "hash-of-bob".

Definition groceries : Task.t :=
  Task.mk 1 "Buy Groceries" (Some "Milk, Bread, Eggs") false "alice-id" 10%Z 10%Z None.
Definition laundry : Task.t :=
  Task.mk 2 "Laundry" None true "alice-id" 11%Z 12%Z (Some 12%Z).
Definition taxes : Task.t :=
  Task.mk 3 "Taxes" None false "bob-id" 13%Z 13%Z None.

Definition sample_world : World :=
  mkWorld {[ 1%Z := groceries; 2%Z := laundry; 3%Z := taxes ]} 4
          {[ "alice-id" := alice; "bob-id" := bob ]} 0 0.

Definition mark_completed : TaskUpdate.t := TaskUpdate.mk None None (Some true).
Definition mark_pending : TaskUpdate.t := TaskUpdate.mk None None (Some false).
Definition rename_only : TaskUpdate.t := TaskUpdate.mk (Some "Buy Food") None None.


Definition sample_hash : nat → string → outcome string :=
  λ _ password, Return ("hash-of-" +:+ password).
Definition sample_verify (plain hashed : string) : outcome bool :=
  Return (bool_decide (hashed = "hash-of-" +:+ plain)).
Definition sample_jwt_encode (payload : gmap string claim) (key algorithm : string) : string :=
  match payload !! "user_id" with
  | Some (ClaimStr uid) => "token-of-" +:+ uid
  | _ => "token"
  end.
Definition sample_uuid4 : nat → string := λ _, "carol-id".

Definition carol_signup : SignupRequest.t :=
  SignupRequest.mk "carol@example.com" "carol" "Carol".
Definition toggle_with_title : TaskUpdate.t :=
  TaskUpdate.mk (Some "Ignored") (Some "ignored too") (Some true).


(** * Properties *)

(** ** Running a handler *)

Ltac io_unfold :=
  unfold get_task, update_task, toggle_task_completion, delete_task, create_task,
    list_tasks, Task_init, task_not_found, result_of;
  unfold mbind, mret, Io_bind, Io_ret, raise, select_task_by_id_and_owner,
    select_tasks_where, scalar_one_or_none, session_commit_task, session_delete_task,
    session_add_task, utcnow, HTTP_404_NOT_FOUND, not_found_detail.

Section task_lookup.

Variables (w : World) (task_id : Z) (uid : string).

Lemma bind_fetch {A : Type} (k : option Task.t → Io A) :
  (result ← select_task_by_id_and_owner task_id uid;
   task ← scalar_one_or_none result;
   k task) w
  = k (owned_task w task_id uid) w.
Proof.
  unfold owned_task. io_unfold. cbn.
  destruct (task_table w !! task_id) as [task|]; [|reflexivity].
  case_bool_decide; reflexivity.
Qed.

Lemma owned_task_missing : task_table w !! task_id = None → owned_task w task_id uid = None.
Proof. intros H. unfold owned_task. by rewrite H. Qed.

Lemma owned_task_foreign (task : Task.t) :
  task_table w !! task_id = Some task → Task.user_id task ≠ uid →
  owned_task w task_id uid = None.
Proof. intros H Hne. unfold owned_task. rewrite H. by rewrite bool_decide_eq_false_2. Qed.

Lemma owned_task_own (task : Task.t) :
  task_table w !! task_id = Some task → Task.user_id task = uid →
  owned_task w task_id uid = Some task.
Proof. intros H He. unfold owned_task. rewrite H. by rewrite bool_decide_eq_true_2. Qed.

End task_lookup.

(** Each route answers 404 and leaves the world alone when the caller owns
    no row under the id. *)
Section routes_without_row.

Variable clock : nat → datetime.
Variables (w : World) (task_id : Z) (current_user : User.t).
Hypothesis unowned : owned_task w task_id (User.id current_user) = None.

Lemma get_task_unowned : get_task task_id current_user w = task_not_found w.
Proof. unfold get_task. rewrite bind_fetch, unowned. reflexivity. Qed.

Lemma update_task_unowned (task_data : TaskUpdate.t) :
  update_task clock task_id task_data current_user w = task_not_found w.
Proof. unfold update_task. rewrite bind_fetch, unowned. reflexivity. Qed.

Lemma toggle_task_completion_unowned (completed_data : TaskUpdate.t) :
  toggle_task_completion clock task_id completed_data current_user w = task_not_found w.
Proof. unfold toggle_task_completion. rewrite bind_fetch, unowned. reflexivity. Qed.

Lemma delete_task_unowned : delete_task task_id current_user w = task_not_found w.
Proof. unfold delete_task. rewrite bind_fetch, unowned. reflexivity. Qed.

End routes_without_row.

(** ** Ownership *)

(** C1: for distinct owners A and B and a task owned by B, the routes get,
    update, toggleCompletion and delete called as A with that task's id
    answer HTTP 404 with the one not-found message and leave the world, so
    also B's task, as it was; the answer is the one the same call gives
    for an id under which no task exists. *)
Theorem foreign_task_looks_missing (clock : nat → datetime) (w : World) (a b : User.t)
    (task : Task.t) (task_id missing_id : Z) (task_data : TaskUpdate.t) :
  User.id a ≠ User.id b →
  task_table w !! task_id = Some task →
  Task.user_id task = User.id b →
  task_table w !! missing_id = None →
  (get_task task_id a w = task_not_found w
   ∧ get_task missing_id a w = task_not_found w)
  ∧ (update_task clock task_id task_data a w = task_not_found w
     ∧ update_task clock missing_id task_data a w = task_not_found w)
  ∧ (toggle_task_completion clock task_id task_data a w = task_not_found w
     ∧ toggle_task_completion clock missing_id task_data a w = task_not_found w)
  ∧ (delete_task task_id a w = task_not_found w
     ∧ delete_task missing_id a w = task_not_found w).
Proof.
  intros Hab Htask Howner Hmissing.
  assert (owned_task w task_id (User.id a) = None) as Hforeign.
  { apply owned_task_foreign with task; [assumption | congruence]. }
  assert (owned_task w missing_id (User.id a) = None) as Hnone
    by by apply owned_task_missing.
  repeat split;
    auto using get_task_unowned, update_task_unowned,
      toggle_task_completion_unowned, delete_task_unowned.
Qed.

(** The same at the sample world: Alice asks for Bob's task 3 and for the
    unused id 9. *)
Lemma foreign_task_looks_missing_witness :
  (User.id alice ≠ User.id bob
   ∧ task_table sample_world !! 3%Z = Some taxes
   ∧ Task.user_id taxes = User.id bob
   ∧ task_table sample_world !! 9%Z = None)
  ∧ (get_task 3 alice sample_world = task_not_found sample_world
     ∧ get_task 9 alice sample_world = task_not_found sample_world)
  ∧ (update_task sample_clock 3 mark_completed alice sample_world
       = task_not_found sample_world
     ∧ update_task sample_clock 9 mark_completed alice sample_world
       = task_not_found sample_world)
  ∧ (toggle_task_completion sample_clock 3 mark_completed alice sample_world
       = task_not_found sample_world
     ∧ toggle_task_completion sample_clock 9 mark_completed alice sample_world
       = task_not_found sample_world)
  ∧ (delete_task 3 alice sample_world = task_not_found sample_world
     ∧ delete_task 9 alice sample_world = task_not_found sample_world).
Proof.
  split.
  - repeat split; [discriminate | vm_compute; reflexivity ..].
  - apply (foreign_task_looks_missing sample_clock sample_world alice bob taxes 3 9
             mark_completed);
      [discriminate | vm_compute; reflexivity ..].
Defined.

(** ** What update and toggle write *)

(** The two routes on a row the caller owns, as one assignment each. *)
Section routes_with_row.

Variable clock : nat → datetime.
Variables (w : World) (task_id : Z) (current_user : User.t) (task : Task.t).
Hypothesis owned : owned_task w task_id (User.id current_user) = Some task.

Lemma update_task_owned (task_data : TaskUpdate.t) :
  update_task clock task_id task_data current_user w
  = let row :=
      Task.mk (Task.id task)
        (default (Task.title task) (TaskUpdate.title task_data))
        (match TaskUpdate.description task_data with
         | Some v => Some v
         | None => Task.description task
         end)
        (default (Task.completed task) (TaskUpdate.completed task_data))
        (Task.user_id task) (Task.created_at task) (clock (ticks w))
        (match TaskUpdate.completed task_data with
         | Some false => None
         | _ => Task.completed_at task
         end) in
    (Return (TaskResponse_of row),
     mkWorld (<[Task.id task := row]> (task_table w)) (task_id_seq w) (user_table w)
             (S (ticks w)) (draws w)).
Proof.
  unfold update_task. rewrite bind_fetch, owned.
  destruct task_data as [[new_title|] [new_description|] [[|]|]]; reflexivity.
Qed.

Lemma toggle_task_completion_owned (completed_data : TaskUpdate.t) :
  toggle_task_completion clock task_id completed_data current_user w
  = let stamped := bool_decide (TaskUpdate.completed completed_data = Some true) in
    let before_update := if stamped then S (ticks w) else ticks w in
    let row :=
      Task.mk (Task.id task) (Task.title task) (Task.description task)
        (default (Task.completed task) (TaskUpdate.completed completed_data))
        (Task.user_id task) (Task.created_at task) (clock before_update)
        (match TaskUpdate.completed completed_data with
         | Some true => Some (clock (ticks w))
         | Some false => None
         | None => Task.completed_at task
         end) in
    (Return (TaskResponse_of row),
     mkWorld (<[Task.id task := row]> (task_table w)) (task_id_seq w) (user_table w)
             (S before_update) (draws w)).
Proof.
  unfold toggle_task_completion. rewrite bind_fetch, owned.
  destruct completed_data as [new_title new_description [[|]|]]; reflexivity.
Qed.

End routes_with_row.

(** X17: on a task the caller owns, an explicit [completed = false] is
    answered with [completed] false and [completed_at] null by update and
    by toggleCompletion alike. *)
Lemma completed_false_clears_completed_at (clock : nat → datetime) (w : World)
    (task_id : Z) (current_user : User.t) (task : Task.t) (task_data : TaskUpdate.t) :
  owned_task w task_id (User.id current_user) = Some task →
  TaskUpdate.completed task_data = Some false →
  completion_state (result_of (update_task clock task_id task_data current_user w))
    = Some (false, None)
  ∧ completion_state
      (result_of (toggle_task_completion clock task_id task_data current_user w))
    = Some (false, None).
Proof.
  intros Howned Hfalse.
  rewrite (update_task_owned clock w task_id current_user task Howned),
    (toggle_task_completion_owned clock w task_id current_user task Howned).
  cbn. rewrite Hfalse. done.
Qed.

(** The toggle route keeps [completed] and [completed_at] coupled. *)
Lemma toggle_task_completion_couples (clock : nat → datetime) (w : World)
    (task_id : Z) (current_user : User.t) (task : Task.t) (completed_data : TaskUpdate.t) :
  owned_task w task_id (User.id current_user) = Some task →
  (Task.completed task = true ↔ is_Some (Task.completed_at task)) →
  ∃ resp w',
    toggle_task_completion clock task_id completed_data current_user w = (Return resp, w')
    ∧ (TaskResponse.completed resp = true ↔ is_Some (TaskResponse.completed_at resp)).
Proof.
  intros Howned Hcoupled.
  rewrite (toggle_task_completion_owned clock w task_id current_user task Howned).
  eexists _, _. split; [reflexivity|]. cbn.
  destruct (TaskUpdate.completed completed_data) as [[|]|]; cbn.
  - split; eauto.
  - split; [discriminate | intros [? ?]; discriminate].
  - assumption.
Qed.

(** ** Completion bookkeeping of update *)

(** C2 (the code departs from it): a pending task that update marks
    completed comes back with [completed] true and [completed_at] still
    null, and is stored so; the claimed coupling of the two fields fails
    after this update call. *)
Theorem update_task_uncouples_completed_at :
  update_task sample_clock 1 mark_completed alice sample_world
  = (Return (TaskResponse.mk 1 "Buy Groceries" (Some "Milk, Bread, Eggs") true "alice-id"
               10 1000 None),
     mkWorld {[ 1%Z := Task.mk 1 "Buy Groceries" (Some "Milk, Bread, Eggs") true "alice-id"
                         10 1000 None;
                2%Z := laundry; 3%Z := taxes ]} 4
             {[ "alice-id" := alice; "bob-id" := bob ]} 1 0).
Proof. vm_compute. reflexivity. Qed.

(** C3 (the code departs from it): when the caller owns the task and the
    patch sets [completed] to true, update answers with [completed] true
    and with the [completed_at] the task had before, so null for a task
    that was pending, never the instant of the call (which only
    [updated_at] receives). *)
Theorem update_task_true_keeps_completed_at (clock : nat → datetime) (w : World)
    (task_id : Z) (current_user : User.t) (task : Task.t) (task_data : TaskUpdate.t) :
  task_table w !! task_id = Some task →
  Task.user_id task = User.id current_user →
  TaskUpdate.completed task_data = Some true →
  ∃ resp w',
    update_task clock task_id task_data current_user w = (Return resp, w')
    ∧ TaskResponse.completed resp = true
    ∧ TaskResponse.completed_at resp = Task.completed_at task
    ∧ TaskResponse.updated_at resp = clock (ticks w).
Proof.
  intros Hrow Howner Htrue.
  rewrite (update_task_owned clock w task_id current_user task
             (owned_task_own w task_id _ task Hrow Howner)).
  eexists _, _. split; [reflexivity|]. cbn. rewrite Htrue. done.
Qed.

(** The same at the sample world: the pending task 1 marked completed at
    clock reading 1000. *)
Lemma update_task_true_keeps_completed_at_witness :
  (task_table sample_world !! 1%Z = Some groceries
   ∧ Task.user_id groceries = User.id alice
   ∧ TaskUpdate.completed mark_completed = Some true
   ∧ Task.completed groceries = false)
  ∧ ∃ resp w',
      update_task sample_clock 1 mark_completed alice sample_world = (Return resp, w')
      ∧ TaskResponse.completed resp = true
      ∧ TaskResponse.completed_at resp = None
      ∧ TaskResponse.updated_at resp = 1000%Z.
Proof.
  split.
  - repeat split; vm_compute; reflexivity.
  - apply (update_task_true_keeps_completed_at sample_clock sample_world 1 alice groceries
             mark_completed); vm_compute; reflexivity.
Defined.

(** ** Update against toggle *)

(** C4, as stated, fails: on a task the caller owns that is already
    completed, a patch with [completed] true leaves [completed_at] at its
    old instant through update and moves it to the instant of the call
    through toggleCompletion. *)
Lemma update_and_toggle_disagree_on_completed_task :
  owned_task sample_world 2 (User.id alice) = Some laundry
  ∧ completion_state
      (result_of (update_task sample_clock 2 mark_completed alice sample_world))
    = Some (true, Some 12%Z)
  ∧ completion_state
      (result_of (toggle_task_completion sample_clock 2 mark_completed alice sample_world))
    = Some (true, Some 1000%Z).
Proof. repeat split; vm_compute; reflexivity. Qed.

(** C4, amended: for a task the caller owns, update and toggleCompletion
    answer with the same [completed] and [completed_at] whenever the patch
    leaves [completed] out or sets it to false, and with the same whole
    answer and stored state when the patch then carries no title and no
    description.  When the patch sets [completed] to true,
    toggleCompletion stamps [completed_at] with the instant of the call on
    every call, while update keeps the [completed_at] of a task that was
    already completed. *)
Theorem update_and_toggle_completion_rules (clock : nat → datetime) (w : World)
    (task_id : Z) (current_user : User.t) (task : Task.t) (task_data : TaskUpdate.t) :
  task_table w !! task_id = Some task →
  Task.user_id task = User.id current_user →
  (TaskUpdate.completed task_data ≠ Some true →
     completion_state (result_of (update_task clock task_id task_data current_user w))
     = completion_state
         (result_of (toggle_task_completion clock task_id task_data current_user w))
     ∧ (TaskUpdate.title task_data = None → TaskUpdate.description task_data = None →
        update_task clock task_id task_data current_user w
        = toggle_task_completion clock task_id task_data current_user w))
  ∧ (TaskUpdate.completed task_data = Some true →
     completion_state
       (result_of (toggle_task_completion clock task_id task_data current_user w))
     = Some (true, Some (clock (ticks w)))
     ∧ (Task.completed task = true →
        completion_state (result_of (update_task clock task_id task_data current_user w))
        = Some (true, Task.completed_at task))).
Proof.
  intros Hrow Howner.
  pose proof (owned_task_own w task_id _ task Hrow Howner) as Howned.
  rewrite (update_task_owned clock w task_id current_user task Howned),
    (toggle_task_completion_owned clock w task_id current_user task Howned).
  destruct task_data as [new_title new_description [[|]|]]; cbn; split;
    try congruence; intros _; split; try reflexivity; try (intros _; reflexivity).
  all: intros -> ->; reflexivity.
Qed.

(** The same at the sample world, for task 2 set back to pending. *)
Lemma update_and_toggle_completion_rules_witness :
  (task_table sample_world !! 2%Z = Some laundry
   ∧ Task.user_id laundry = User.id alice)
  ∧ (TaskUpdate.completed mark_pending ≠ Some true →
       completion_state (result_of (update_task sample_clock 2 mark_pending alice sample_world))
       = completion_state
           (result_of (toggle_task_completion sample_clock 2 mark_pending alice sample_world))
       ∧ (TaskUpdate.title mark_pending = None → TaskUpdate.description mark_pending = None →
          update_task sample_clock 2 mark_pending alice sample_world
          = toggle_task_completion sample_clock 2 mark_pending alice sample_world))
  ∧ (TaskUpdate.completed mark_pending = Some true →
       completion_state
         (result_of (toggle_task_completion sample_clock 2 mark_pending alice sample_world))
       = Some (true, Some (sample_clock (ticks sample_world)))
       ∧ (Task.completed laundry = true →
          completion_state
            (result_of (update_task sample_clock 2 mark_pending alice sample_world))
          = Some (true, Task.completed_at laundry))).
Proof.
  split.
  - split; vm_compute; reflexivity.
  - apply (update_and_toggle_completion_rules sample_clock sample_world 2 alice laundry
             mark_pending); vm_compute; reflexivity.
Defined.

(** ** Partial update *)

(** C7: on a task the caller owns, update changes only the fields the patch
    carries: a title, description or [completed] absent from the patch
    keeps the value it had (an absent [completed] also keeps
    [completed_at]), and identity, owner and creation instant are never
    touched.  The stored row is the one answered. *)
Theorem update_task_keeps_absent_fields (clock : nat → datetime) (w : World)
    (task_id : Z) (current_user : User.t) (task : Task.t) (task_data : TaskUpdate.t) :
  task_table w !! task_id = Some task →
  Task.user_id task = User.id current_user →
  ∃ row w',
    update_task clock task_id task_data current_user w = (Return (TaskResponse_of row), w')
    ∧ task_table w' !! Task.id task = Some row
    ∧ (TaskUpdate.title task_data = None → Task.title row = Task.title task)
    ∧ (TaskUpdate.description task_data = None →
       Task.description row = Task.description task)
    ∧ (TaskUpdate.completed task_data = None →
       Task.completed row = Task.completed task
       ∧ Task.completed_at row = Task.completed_at task)
    ∧ (∀ v, TaskUpdate.title task_data = Some v → Task.title row = v)
    ∧ (∀ v, TaskUpdate.description task_data = Some v → Task.description row = Some v)
    ∧ (∀ v, TaskUpdate.completed task_data = Some v → Task.completed row = v)
    ∧ Task.id row = Task.id task
    ∧ Task.user_id row = Task.user_id task
    ∧ Task.created_at row = Task.created_at task.
Proof.
  intros Hrow Howner.
  rewrite (update_task_owned clock w task_id current_user task
             (owned_task_own w task_id _ task Hrow Howner)).
  cbv zeta. eexists _, _. split; [reflexivity|]. cbn.
  split; [apply lookup_insert_eq|].
  destruct task_data as [[new_title|] [new_description|] [[|]|]]; cbn;
    repeat split; intros; congruence.
Qed.

(** The same at the sample world, for task 2 renamed only. *)
Lemma update_task_keeps_absent_fields_witness :
  (task_table sample_world !! 2%Z = Some laundry
   ∧ Task.user_id laundry = User.id alice)
  ∧ ∃ row w',
      update_task sample_clock 2 rename_only alice sample_world
      = (Return (TaskResponse_of row), w')
      ∧ task_table w' !! Task.id laundry = Some row
      ∧ (TaskUpdate.title rename_only = None → Task.title row = Task.title laundry)
      ∧ (TaskUpdate.description rename_only = None →
         Task.description row = Task.description laundry)
      ∧ (TaskUpdate.completed rename_only = None →
         Task.completed row = Task.completed laundry
         ∧ Task.completed_at row = Task.completed_at laundry)
      ∧ (∀ v, TaskUpdate.title rename_only = Some v → Task.title row = v)
      ∧ (∀ v, TaskUpdate.description rename_only = Some v → Task.description row = Some v)
      ∧ (∀ v, TaskUpdate.completed rename_only = Some v → Task.completed row = v)
      ∧ Task.id row = Task.id laundry
      ∧ Task.user_id row = Task.user_id laundry
      ∧ Task.created_at row = Task.created_at laundry.
Proof.
  split.
  - split; vm_compute; reflexivity.
  - apply (update_task_keeps_absent_fields sample_clock sample_world 2 alice laundry
             rename_only); vm_compute; reflexivity.
Defined.

(** ** Creation *)

(** C6: for every caller and every create input, whatever [completed] the
    client sent, the task create answers has [completed] false,
    [completed_at] null, the caller's id as its owner and the clock
    readings of the call as [created_at] and [updated_at]; its title and
    description are the input's and its identity is the one the storage
    hands out, under which the same task is stored. *)
Theorem create_task_starts_pending (clock : nat → datetime) (w : World)
    (task_data : TaskCreate.t) (current_user : User.t) :
  ∃ resp w',
    create_task clock task_data current_user w = (Return resp, w')
    ∧ TaskResponse.completed resp = false
    ∧ TaskResponse.completed_at resp = None
    ∧ TaskResponse.user_id resp = User.id current_user
    ∧ TaskResponse.created_at resp = clock (ticks w)
    ∧ TaskResponse.updated_at resp = clock (S (ticks w))
    ∧ TaskResponse.title resp = TaskCreate.title task_data
    ∧ TaskResponse.description resp = TaskCreate.description task_data
    ∧ TaskResponse.id resp = task_id_seq w
    ∧ task_table w' !! task_id_seq w
      = Some (Task.mk (task_id_seq w) (TaskCreate.title task_data)
                (TaskCreate.description task_data) false (User.id current_user)
                (clock (ticks w)) (clock (S (ticks w))) None).
Proof.
  eexists _, _. split; [reflexivity|]. cbn.
  repeat (split; [reflexivity|]). apply lookup_insert_eq.
Qed.

(** ** Listing *)

Lemma length_filter_completed_split (rows : list Task.t) :
  length (filter (λ task, negb (Task.completed task) = true) rows)
  + length (filter (λ task, Task.completed task = true) rows)
  = length rows.
Proof.
  induction rows as [|task rows IH]; [reflexivity|].
  rewrite !filter_cons.
  repeat case_decide; destruct (Task.completed task); cbn in *; try discriminate; lia.
Qed.

Lemma filter_all {A : Type} (P : A → Prop) `{!∀ x, Decision (P x)} (l : list A) :
  (∀ x, P x) → filter P l = l.
Proof.
  intros HP. induction l as [|x l IH]; [reflexivity|].
  rewrite filter_cons_True by apply HP. by rewrite IH.
Qed.

(** The query the list route builds keeps the owner's rows that pass the
    status filter. *)
Lemma list_tasks_query (uid : string) (status_filter : option string) (rows : list Task.t) :
  filter (λ task,
            (if bool_decide (status_filter = Some "pending") then
               λ task, bool_decide (Task.user_id task = uid)
                       && bool_decide (Task.completed task = false)
             else if bool_decide (status_filter = Some "completed") then
               λ task, bool_decide (Task.user_id task = uid)
                       && bool_decide (Task.completed task = true)
             else λ task, bool_decide (Task.user_id task = uid)) task = true) rows
  = filter (passes_status_filter status_filter)
      (filter (λ task, Task.user_id task = uid) rows).
Proof.
  rewrite list_filter_filter. apply list_filter_iff. intros task.
  unfold passes_status_filter.
  destruct (bool_decide (status_filter = Some "pending"));
    [|destruct (bool_decide (status_filter = Some "completed"))];
    rewrite ?andb_true_iff, ?bool_decide_eq_true; tauto.
Qed.

Lemma list_tasks_answer (w : World) (current_user : User.t) (status_filter : option string) :
  list_tasks current_user status_filter w
  = let rows :=
      filter (passes_status_filter status_filter)
        (tasks_of_owner w (User.id current_user)) in
    (Return (TaskListResponse.mk (TaskResponse_of <$> rows) (length rows)
               (length (filter (λ task, negb (Task.completed task) = true) rows))
               (length (filter (λ task, Task.completed task = true) rows))),
     w).
Proof.
  unfold list_tasks, tasks_of_owner. io_unfold. cbn. unfold len.
  rewrite list_tasks_query. reflexivity.
Qed.

(** C5, as stated, fails: with two tasks of the caller, one pending and one
    completed, the list filtered on pending answers total 1 (not 2) and the
    list filtered on completed answers pending 0 (not 1). *)
Lemma list_tasks_counts_follow_filter :
  length (tasks_of_owner sample_world (User.id alice)) = 2
  ∧ counts_of (result_of (list_tasks alice (Some "all") sample_world)) = Some (2, 1, 1)
  ∧ counts_of (result_of (list_tasks alice (Some "pending") sample_world)) = Some (1, 1, 0)
  ∧ counts_of (result_of (list_tasks alice (Some "completed") sample_world))
    = Some (1, 0, 1).
Proof. repeat split; vm_compute; reflexivity. Qed.

(** C5, amended: for every owner and every status filter, the list route
    keeps the owner's tasks first and then those in the asked completion
    state (every task for a filter that is neither pending nor completed),
    and the three counts are computed over the tasks it returns: total is
    their number, pending the number of those not completed, completed the
    number of those completed.  With a filter that is neither pending nor
    completed, such as all, they count all of the caller's tasks. *)
Theorem list_tasks_counts_returned_tasks (w : World) (current_user : User.t)
    (status_filter : option string) :
  ∃ rows resp,
    list_tasks current_user status_filter w = (Return resp, w)
    ∧ rows = filter (passes_status_filter status_filter)
               (tasks_of_owner w (User.id current_user))
    ∧ TaskListResponse.tasks resp = TaskResponse_of <$> rows
    ∧ TaskListResponse.total resp = length rows
    ∧ TaskListResponse.pending resp
      = length (filter (λ task, Task.completed task = false) rows)
    ∧ TaskListResponse.completed resp
      = length (filter (λ task, Task.completed task = true) rows)
    ∧ (status_filter ≠ Some "pending" → status_filter ≠ Some "completed" →
       rows = tasks_of_owner w (User.id current_user)).
Proof.
  rewrite list_tasks_answer. cbv zeta. eexists _, _.
  split; [reflexivity|]. split; [reflexivity|]. cbn.
  repeat split.
  - apply (f_equal length), list_filter_iff. intros task.
    destruct (Task.completed task); cbn; split; congruence.
  - intros Hp Hc. apply filter_all.
    intros task. unfold passes_status_filter.
    rewrite !bool_decide_eq_false_2 by assumption. exact I.
Qed.

(** C10: in every answer of the list route, for every owner and every
    status filter, total = pending + completed. *)
Theorem list_tasks_total_is_sum (w : World) (current_user : User.t)
    (status_filter : option string) :
  ∃ resp,
    list_tasks current_user status_filter w = (Return resp, w)
    ∧ TaskListResponse.total resp
      = TaskListResponse.pending resp + TaskListResponse.completed resp.
Proof.
  rewrite list_tasks_answer. cbv zeta. eexists. split; [reflexivity|]. cbn.
  symmetry. apply length_filter_completed_split.
Qed.

(** ** Signup *)

Lemma filter_none {A : Type} (P : A → Prop) `{!∀ x, Decision (P x)} (l : list A) :
  (∀ x, x ∈ l → ¬ P x) → filter P l = [].
Proof.
  induction l as [|x l IH]; intros HP; [reflexivity|].
  rewrite filter_cons_False by (apply HP; left).
  apply IH. intros y Hy. apply HP. by right.
Qed.

(** In a list without two rows of the same key, the rows with the key of a
    member are that member alone. *)
Lemma filter_unique_key {A K : Type} `{!EqDecision K} (key : A → K) (l : list A) (x : A) :
  NoDup (key <$> l) → x ∈ l → filter (λ y, key y = key x) l = [x].
Proof.
  induction l as [|y l IH]; intros Hnodup Hin.
  - by apply elem_of_nil in Hin.
  - rewrite fmap_cons in Hnodup. apply NoDup_cons in Hnodup as [Hfresh Hnodup].
    apply elem_of_cons in Hin as [->|Hin].
    + rewrite filter_cons_True by reflexivity. f_equal.
      apply filter_none. intros z Hz Hkey. apply Hfresh.
      rewrite <- Hkey. apply list_elem_of_fmap. by exists z.
    + rewrite filter_cons_False; [by apply IH|].
      intros Hkey. apply Hfresh. rewrite Hkey.
      apply list_elem_of_fmap. by exists x.
Qed.

(** C8: a signup whose email is that of a stored user (the emails of the
    table being unique, as the model declares them) fails with HTTP 400,
    Email already registered, and leaves the world, so the user table, as
    it was: no second record with that email is created. *)
Theorem signup_duplicate_email (clock : nat → datetime) (settings : Settings.t)
    (pwd_context_hash : nat → string → outcome string)
    (jwt_encode : gmap string claim → string → string → string) (uuid4 : nat → string)
    (w : World) (user_data : SignupRequest.t) (uid : string) (user : User.t) :
  unique_emails w →
  user_table w !! uid = Some user →
  User.email user = SignupRequest.email user_data →
  signup clock settings pwd_context_hash jwt_encode uuid4 user_data w
  = (Raise (HTTPException 400 "Email already registered"), w).
Proof.
  intros Hunique Hrow Hemail.
  assert (user ∈ (map_to_list (user_table w)).*2) as Hin.
  { apply list_elem_of_fmap. exists (uid, user). split; [reflexivity|].
    by apply elem_of_map_to_list. }
  unfold signup, select_users_where, mbind, Io_bind.
  erewrite list_filter_iff;
    [rewrite (filter_unique_key User.email _ user Hunique Hin)|].
  - reflexivity.
  - intros other. cbn. rewrite bool_decide_eq_true. by rewrite Hemail.
Qed.

(** The same at the sample world: a second signup with Alice's email. *)
Lemma signup_duplicate_email_witness :
  (unique_emails sample_world
   ∧ user_table sample_world !! "alice-id" = Some alice
   ∧ User.email alice = "alice@example.com")
  ∧ signup sample_clock Settings.default (λ _ password, Return password) (λ _ key _, key)
      (λ _, "fresh-id") (SignupRequest.mk "alice@example.com" "secret" "Alice Again")
      sample_world
    = (Raise (HTTPException 400 "Email already registered"), sample_world).
Proof.
  assert (unique_emails sample_world) as Hunique.
  { apply (bool_decide_unpack _). vm_compute. exact I. }
  split.
  - split; [exact Hunique | split; vm_compute; reflexivity].
  - apply (signup_duplicate_email sample_clock Settings.default (λ _ password, Return password)
             (λ _ key _, key) (λ _, "fresh-id") sample_world
             (SignupRequest.mk "alice@example.com" "secret" "Alice Again")
             "alice-id" alice);
      [exact Hunique | vm_compute; reflexivity | reflexivity].
Defined.

(** ** Token verification *)




(** * Further properties of the task routes *)

Lemma owned_task_inv (w : World) (task_id : Z) (uid : string) (task : Task.t) :
  owned_task w task_id uid = Some task →
  task_table w !! task_id = Some task ∧ Task.user_id task = uid.
Proof.
  unfold owned_task. destruct (task_table w !! task_id) as [row|]; [|discriminate].
  case_bool_decide; [|discriminate]. intros [= ->]. done.
Qed.

Lemma get_task_by_row (w : World) (task_id : Z) (current_user : User.t) :
  get_task task_id current_user w
  = match owned_task w task_id (User.id current_user) with
    | Some task => (Return (TaskResponse_of task), w)
    | None => task_not_found w
    end.
Proof.
  unfold get_task. rewrite bind_fetch.
  destruct (owned_task w task_id (User.id current_user)); reflexivity.
Qed.

Lemma delete_task_owned (w : World) (task_id : Z) (current_user : User.t) (task : Task.t) :
  owned_task w task_id (User.id current_user) = Some task →
  delete_task task_id current_user w
  = (Return [("message", "Task deleted successfully")],
     mkWorld (delete (Task.id task) (task_table w)) (task_id_seq w) (user_table w)
             (ticks w) (draws w)).
Proof. intros Howned. unfold delete_task. rewrite bind_fetch, Howned. reflexivity. Qed.

(** X1: get never changes the world, and it answers a task exactly when a
    row is stored under the id and the caller owns it; the answer is then
    that row, field for field. *)
Theorem get_task_answers_owned_row (w : World) (task_id : Z) (current_user : User.t) :
  (get_task task_id current_user w).2 = w
  ∧ ∀ resp,
      (get_task task_id current_user w).1 = Return resp
      ↔ ∃ task, task_table w !! task_id = Some task
                ∧ Task.user_id task = User.id current_user
                ∧ resp = TaskResponse_of task.
Proof.
  rewrite get_task_by_row.
  destruct (owned_task w task_id (User.id current_user)) as [task|] eqn:Howned.
  - apply owned_task_inv in Howned as [Hrow Howner].
    split; [reflexivity|]. intros resp. cbn. split.
    + intros [= <-]. eauto.
    + intros (task' & Hrow' & _ & ->). congruence.
  - split; [reflexivity|]. intros resp. cbn. split; [discriminate|].
    intros (task & Hrow & Howner & _).
    by rewrite (owned_task_own w task_id _ task Hrow Howner) in Howned.
Qed.

(** X2: the list route answers, without changing the world, exactly the
    stored tasks that the caller owns and that pass the status filter;
    every task it shows belongs to the caller. *)
Theorem list_tasks_shows_exactly_own_tasks (w : World) (current_user : User.t)
    (status_filter : option string) :
  ∃ resp,
    list_tasks current_user status_filter w = (Return resp, w)
    ∧ (∀ r, r ∈ TaskListResponse.tasks resp
            ↔ ∃ k task, task_table w !! k = Some task
                        ∧ Task.user_id task = User.id current_user
                        ∧ passes_status_filter status_filter task
                        ∧ r = TaskResponse_of task)
    ∧ (∀ r, r ∈ TaskListResponse.tasks resp →
            TaskResponse.user_id r = User.id current_user).
Proof.
  rewrite list_tasks_answer. cbv zeta. eexists. split; [reflexivity|]. cbn.
  assert (∀ r, r ∈ TaskResponse_of <$>
                 filter (passes_status_filter status_filter)
                   (tasks_of_owner w (User.id current_user))
               ↔ ∃ k task, task_table w !! k = Some task
                           ∧ Task.user_id task = User.id current_user
                           ∧ passes_status_filter status_filter task
                           ∧ r = TaskResponse_of task) as Hmem.
  { intros r. unfold tasks_of_owner. rewrite list_elem_of_fmap. split.
    - intros (task & -> & Hin).
      apply list_elem_of_filter in Hin as [Hpass Hin].
      apply list_elem_of_filter in Hin as [Howner Hin].
      apply list_elem_of_fmap in Hin as ([k row] & -> & Hin).
      apply elem_of_map_to_list in Hin. eauto 10.
    - intros (k & task & Hrow & Howner & Hpass & ->).
      exists task. split; [reflexivity|].
      apply list_elem_of_filter. split; [assumption|].
      apply list_elem_of_filter. split; [assumption|].
      apply list_elem_of_fmap. exists (k, task). split; [reflexivity|].
      by apply elem_of_map_to_list. }
  split; [exact Hmem|].
  intros r Hr. apply Hmem in Hr as (k & task & _ & Howner & _ & ->). exact Howner.
Qed.

(** X3: deleting a task the caller owns answers the success message,
    removes that row and no other, leaves users and the identity counter
    alone, and a following get of the same id by the same caller answers
    404. *)
Theorem delete_task_removes_only_that_row (w : World) (task_id : Z)
    (current_user : User.t) (task : Task.t) :
  task_table w !! task_id = Some task →
  Task.user_id task = User.id current_user →
  Task.id task = task_id →
  ∃ w',
    delete_task task_id current_user w
    = (Return [("message", "Task deleted successfully")], w')
    ∧ task_table w' = delete task_id (task_table w)
    ∧ user_table w' = user_table w
    ∧ task_id_seq w' = task_id_seq w
    ∧ get_task task_id current_user w' = task_not_found w'.
Proof.
  intros Hrow Howner Hid.
  rewrite (delete_task_owned w task_id current_user task
             (owned_task_own w task_id _ task Hrow Howner)).
  eexists. split; [reflexivity|]. cbn. rewrite Hid.
  repeat split. apply get_task_unowned, owned_task_missing. cbn.
  apply lookup_delete_eq.
Qed.

(** The same at the sample world: Alice deletes her task 2. *)
Lemma delete_task_removes_only_that_row_witness :
  (task_table sample_world !! 2%Z = Some laundry
   ∧ Task.user_id laundry = User.id alice
   ∧ Task.id laundry = 2%Z)
  ∧ ∃ w',
      delete_task 2 alice sample_world
      = (Return [("message", "Task deleted successfully")], w')
      ∧ task_table w' = delete 2%Z (task_table sample_world)
      ∧ user_table w' = user_table sample_world
      ∧ task_id_seq w' = task_id_seq sample_world
      ∧ get_task 2 alice w' = task_not_found w'.
Proof.
  split.
  - split; [|split]; vm_compute; reflexivity.
  - apply (delete_task_removes_only_that_row sample_world 2 alice laundry);
      vm_compute; reflexivity.
Defined.

(** The table after a route that found no row of the caller is the table
    before; after one that found a row, the table differs at that row's
    key only. *)
Lemma routes_touch_one_key (clock : nat → datetime) (w : World) (task_id : Z)
    (current_user : User.t) (task_data : TaskUpdate.t) (k : Z) :
  rows_under_own_id w →
  k ≠ task_id →
  task_table (update_task clock task_id task_data current_user w).2 !! k
    = task_table w !! k
  ∧ task_table (toggle_task_completion clock task_id task_data current_user w).2 !! k
    = task_table w !! k
  ∧ task_table (delete_task task_id current_user w).2 !! k = task_table w !! k.
Proof.
  intros Hwf Hk.
  destruct (owned_task w task_id (User.id current_user)) as [task|] eqn:Howned.
  - rewrite (update_task_owned clock w task_id current_user task Howned),
      (toggle_task_completion_owned clock w task_id current_user task Howned),
      (delete_task_owned w task_id current_user task Howned).
    apply owned_task_inv in Howned as [Hrow _].
    rewrite (Hwf task_id task Hrow). cbn.
    rewrite !lookup_insert_ne, lookup_delete_ne by congruence. done.
  - rewrite (update_task_unowned clock w task_id current_user Howned),
      (toggle_task_completion_unowned clock w task_id current_user Howned),
      (delete_task_unowned w task_id current_user Howned). done.
Qed.

(** X4: whatever id and body a caller sends to update, toggleCompletion or
    delete, every stored task of another owner is still stored, unchanged,
    afterwards (each row sitting under its own id). *)
Theorem routes_leave_other_owners_tasks (clock : nat → datetime) (w : World) (task_id : Z)
    (current_user : User.t) (task_data : TaskUpdate.t) (k : Z) (other : Task.t) :
  rows_under_own_id w →
  task_table w !! k = Some other →
  Task.user_id other ≠ User.id current_user →
  task_table (update_task clock task_id task_data current_user w).2 !! k = Some other
  ∧ task_table (toggle_task_completion clock task_id task_data current_user w).2 !! k
    = Some other
  ∧ task_table (delete_task task_id current_user w).2 !! k = Some other.
Proof.
  intros Hwf Hother Hforeign.
  destruct (decide (k = task_id)) as [->|Hk].
  - pose proof (owned_task_foreign w task_id _ other Hother Hforeign) as Hnone.
    rewrite (update_task_unowned clock w task_id current_user Hnone),
      (toggle_task_completion_unowned clock w task_id current_user Hnone),
      (delete_task_unowned w task_id current_user Hnone). done.
  - rewrite <- Hother.
    apply (routes_touch_one_key clock w task_id current_user task_data k Hwf Hk).
Qed.

(** The same at the sample world: Alice works on her task 1, Bob's task 3
    stays. *)
Lemma routes_leave_other_owners_tasks_witness :
  (rows_under_own_id sample_world
   ∧ task_table sample_world !! 3%Z = Some taxes
   ∧ Task.user_id taxes ≠ User.id alice)
  ∧ task_table (update_task sample_clock 1 mark_completed alice sample_world).2 !! 3%Z
    = Some taxes
  ∧ task_table (toggle_task_completion sample_clock 1 mark_completed alice sample_world).2
      !! 3%Z = Some taxes
  ∧ task_table (delete_task 1 alice sample_world).2 !! 3%Z = Some taxes.
Proof.
  assert (rows_under_own_id sample_world) as Hwf.
  { apply (bool_decide_unpack _). vm_compute. exact I. }
  split.
  - split; [exact Hwf | split; [vm_compute; reflexivity | discriminate]].
  - apply (routes_leave_other_owners_tasks sample_clock sample_world 1 alice
             mark_completed 3 taxes);
      [exact Hwf | vm_compute; reflexivity | discriminate].
Defined.

(** X5: on a task the caller owns, toggleCompletion reads only [completed]
    from its body: title, description, identity, owner and creation instant
    of the task stay as they were whatever title and description the body
    carries, [updated_at] becomes a clock reading of the call, and the row
    answered is the row stored. *)
Theorem toggle_task_completion_ignores_other_fields (clock : nat → datetime) (w : World)
    (task_id : Z) (current_user : User.t) (task : Task.t) (completed_data : TaskUpdate.t) :
  task_table w !! task_id = Some task →
  Task.user_id task = User.id current_user →
  ∃ row w',
    toggle_task_completion clock task_id completed_data current_user w
    = (Return (TaskResponse_of row), w')
    ∧ task_table w' !! Task.id task = Some row
    ∧ Task.title row = Task.title task
    ∧ Task.description row = Task.description task
    ∧ Task.id row = Task.id task
    ∧ Task.user_id row = Task.user_id task
    ∧ Task.created_at row = Task.created_at task
    ∧ (TaskUpdate.completed completed_data = None →
       Task.completed row = Task.completed task
       ∧ Task.completed_at row = Task.completed_at task
       ∧ Task.updated_at row = clock (ticks w)).
Proof.
  intros Hrow Howner.
  rewrite (toggle_task_completion_owned clock w task_id current_user task
             (owned_task_own w task_id _ task Hrow Howner)).
  cbv zeta. eexists _, _. split; [reflexivity|]. cbn.
  split; [apply lookup_insert_eq|].
  destruct completed_data as [new_title new_description [c|]]; cbn;
    repeat split; try discriminate.
Qed.

(** The same at the sample world: a toggle body that also carries a title
    and a description. *)
Lemma toggle_task_completion_ignores_other_fields_witness :
  (task_table sample_world !! 1%Z = Some groceries
   ∧ Task.user_id groceries = User.id alice)
  ∧ ∃ row w',
      toggle_task_completion sample_clock 1 toggle_with_title alice sample_world
      = (Return (TaskResponse_of row), w')
      ∧ task_table w' !! Task.id groceries = Some row
      ∧ Task.title row = Task.title groceries
      ∧ Task.description row = Task.description groceries
      ∧ Task.id row = Task.id groceries
      ∧ Task.user_id row = Task.user_id groceries
      ∧ Task.created_at row = Task.created_at groceries
      ∧ (TaskUpdate.completed toggle_with_title = None →
         Task.completed row = Task.completed groceries
         ∧ Task.completed_at row = Task.completed_at groceries
         ∧ Task.updated_at row = sample_clock (ticks sample_world)).
Proof.
  split.
  - split; vm_compute; reflexivity.
  - apply (toggle_task_completion_ignores_other_fields sample_clock sample_world 1 alice
             groceries toggle_with_title); vm_compute; reflexivity.
Defined.

(** X6: when its body gives [completed], toggleCompletion leaves the task
    coupled whatever state it was in: [completed] is the value given,
    [completed_at] is the first clock reading of the call for true and null
    for false, so [completed] holds exactly when [completed_at] is set;
    [updated_at] is the reading taken after. *)
Theorem toggle_task_completion_establishes_coupling (clock : nat → datetime) (w : World)
    (task_id : Z) (current_user : User.t) (task : Task.t) (completed_data : TaskUpdate.t)
    (c : bool) :
  task_table w !! task_id = Some task →
  Task.user_id task = User.id current_user →
  TaskUpdate.completed completed_data = Some c →
  ∃ resp w',
    toggle_task_completion clock task_id completed_data current_user w = (Return resp, w')
    ∧ TaskResponse.completed resp = c
    ∧ TaskResponse.completed_at resp = (if c then Some (clock (ticks w)) else None)
    ∧ TaskResponse.updated_at resp = clock (if c then S (ticks w) else ticks w)
    ∧ (TaskResponse.completed resp = true ↔ is_Some (TaskResponse.completed_at resp)).
Proof.
  intros Hrow Howner Hc.
  rewrite (toggle_task_completion_owned clock w task_id current_user task
             (owned_task_own w task_id _ task Hrow Howner)).
  cbv zeta. eexists _, _. split; [reflexivity|]. cbn. rewrite Hc.
  destruct c; cbn; repeat split; eauto; try discriminate.
  intros [? ?]; discriminate.
Qed.

(** The same on the task that update left completed without an instant. *)
Lemma toggle_task_completion_establishes_coupling_witness :
  (task_table (update_task sample_clock 1 mark_completed alice sample_world).2 !! 1%Z
     = Some (Task.mk 1 "Buy Groceries" (Some "Milk, Bread, Eggs") true "alice-id"
               10 1000 None)
   ∧ TaskUpdate.completed mark_completed = Some true)
  ∧ ∃ resp w',
      toggle_task_completion sample_clock 1 mark_completed alice
        (update_task sample_clock 1 mark_completed alice sample_world).2
      = (Return resp, w')
      ∧ TaskResponse.completed resp = true
      ∧ TaskResponse.completed_at resp = Some 1001%Z
      ∧ TaskResponse.updated_at resp = 1002%Z
      ∧ (TaskResponse.completed resp = true ↔ is_Some (TaskResponse.completed_at resp)).
Proof.
  split.
  - split; vm_compute; reflexivity.
  - apply (toggle_task_completion_establishes_coupling sample_clock
             (update_task sample_clock 1 mark_completed alice sample_world).2 1 alice
             (Task.mk 1 "Buy Groceries" (Some "Milk, Bread, Eggs") true "alice-id"
                10 1000 None) mark_completed true);
      vm_compute; reflexivity.
Defined.

(** X7: the task that create answers is stored: a get of its id by the
    creator, right after, answers the same task, and a get of it by any
    other user answers 404. *)
Theorem create_task_then_get_task (clock : nat → datetime) (w : World)
    (task_data : TaskCreate.t) (current_user other_user : User.t) :
  ∃ resp w',
    create_task clock task_data current_user w = (Return resp, w')
    ∧ get_task (TaskResponse.id resp) current_user w' = (Return resp, w')
    ∧ (User.id other_user ≠ User.id current_user →
       get_task (TaskResponse.id resp) other_user w' = task_not_found w').
Proof.
  eexists _, _. split; [reflexivity|]. cbn. split.
  - rewrite get_task_by_row.
    erewrite owned_task_own; [reflexivity | apply lookup_insert_eq | reflexivity].
  - intros Hother. apply get_task_unowned.
    eapply owned_task_foreign; [apply lookup_insert_eq|]. cbn. congruence.
Qed.

(** X8: what update and toggleCompletion answer for a task the caller owns
    is what they store: a get of the same id by the same caller, right
    after either, answers the very same task. *)
Theorem update_then_get_task (clock : nat → datetime) (w : World) (task_id : Z)
    (current_user : User.t) (task : Task.t) (task_data : TaskUpdate.t) :
  task_table w !! task_id = Some task →
  Task.user_id task = User.id current_user →
  Task.id task = task_id →
  (∃ resp w',
     update_task clock task_id task_data current_user w = (Return resp, w')
     ∧ get_task task_id current_user w' = (Return resp, w'))
  ∧ (∃ resp w',
       toggle_task_completion clock task_id task_data current_user w = (Return resp, w')
       ∧ get_task task_id current_user w' = (Return resp, w')).
Proof.
  intros Hrow Howner Hid.
  pose proof (owned_task_own w task_id _ task Hrow Howner) as Howned.
  rewrite (update_task_owned clock w task_id current_user task Howned),
    (toggle_task_completion_owned clock w task_id current_user task Howned).
  cbv zeta. rewrite Hid.
  split; eexists _, _; (split; [reflexivity|]); rewrite get_task_by_row;
    (erewrite owned_task_own; [reflexivity | apply lookup_insert_eq | exact Howner]).
Qed.

(** The same at the sample world: Alice renames her task 2 and reads it
    back. *)
Lemma update_then_get_task_witness :
  (task_table sample_world !! 2%Z = Some laundry
   ∧ Task.user_id laundry = User.id alice
   ∧ Task.id laundry = 2%Z)
  ∧ (∃ resp w',
       update_task sample_clock 2 rename_only alice sample_world = (Return resp, w')
       ∧ get_task 2 alice w' = (Return resp, w'))
  ∧ (∃ resp w',
       toggle_task_completion sample_clock 2 rename_only alice sample_world
       = (Return resp, w')
       ∧ get_task 2 alice w' = (Return resp, w')).
Proof.
  split.
  - split; [|split]; vm_compute; reflexivity.
  - apply (update_then_get_task sample_clock sample_world 2 alice laundry rename_only);
      vm_compute; reflexivity.
Defined.

(** * Further properties of signup, login and tokens *)

Lemma users_with_unknown_email (w : World) (email : string) :
  ¬ stored_email w email →
  filter (λ user, bool_decide (User.email user = email) = true)
    (map_to_list (user_table w)).*2 = [].
Proof.
  intros Hnone. apply filter_none. intros user Hin Hemail.
  apply bool_decide_eq_true in Hemail. apply Hnone. unfold stored_email.
  rewrite <- Hemail. apply list_elem_of_fmap. by exists user.
Qed.

Lemma users_with_stored_email (w : World) (uid : string) (user : User.t) :
  unique_emails w →
  user_table w !! uid = Some user →
  filter (λ other, bool_decide (User.email other = User.email user) = true)
    (map_to_list (user_table w)).*2 = [user].
Proof.
  intros Hunique Hrow.
  assert (user ∈ (map_to_list (user_table w)).*2) as Hin.
  { apply list_elem_of_fmap. exists (uid, user). split; [reflexivity|].
    by apply elem_of_map_to_list. }
  rewrite <- (filter_unique_key User.email _ user Hunique Hin).
  apply list_filter_iff. intros other. apply bool_decide_eq_true.
Qed.





(** X10: signup keeps the stored emails unique, whatever it is given and
    however it ends (a token, the duplicate-email 400, or a refusal of the
    storage). *)
Theorem signup_keeps_emails_unique (clock : nat → datetime) (settings : Settings.t)
    (pwd_context_hash : nat → string → outcome string)
    (jwt_encode : gmap string claim → string → string → string) (uuid4 : nat → string)
    (w : World) (user_data : SignupRequest.t) :
  unique_emails w →
  unique_emails (signup clock settings pwd_context_hash jwt_encode uuid4 user_data w).2.
Proof.
  intros Hunique.
  unfold signup, select_users_where, mbind, Io_bind.
  destruct (filter _ _) as [|found [|another rest]]; cbn; try exact Hunique.
  unfold get_password_hash.
  destruct (pwd_context_hash (draws w) (SignupRequest.password user_data))
    as [hashed|e]; [|exact Hunique].
  unfold session_add_user, User_init, new_uuid, utcnow, mbind, mret, Io_bind, Io_ret. cbn.
  case_bool_decide as Hrefused; cbn; [exact Hunique|].
  unfold unique_emails in *. cbn.
  rewrite map_to_list_insert.
  - cbn. apply NoDup_cons. split; [|exact Hunique].
    intros Hstored. apply Hrefused. by right.
  - apply eq_None_not_Some. intros Htaken. apply Hrefused. by left.
Qed.

(** The same at the sample world, for Carol's signup. *)
Lemma signup_keeps_emails_unique_witness :
  unique_emails sample_world
  ∧ unique_emails
      (signup sample_clock Settings.default sample_hash sample_jwt_encode sample_uuid4
         carol_signup sample_world).2.
Proof.
  assert (unique_emails sample_world) as Hunique.
  { apply (bool_decide_unpack _). vm_compute. exact I. }
  split; [exact Hunique|].
  apply (signup_keeps_emails_unique sample_clock Settings.default sample_hash
           sample_jwt_encode sample_uuid4 sample_world carol_signup Hunique).
Defined.

(** ** Login *)

Section login_by_cases.

Variable clock : nat → datetime.
Variable settings : Settings.t.
Variable jwt_encode : gmap string claim → string → string → string.
Variable pwd_context_verify : string → string → outcome bool.
Variable w : World.

Lemma login_unknown_email (user_data : LoginRequest.t) :
  ¬ stored_email w (LoginRequest.email user_data) →
  login clock settings jwt_encode pwd_context_verify user_data w = unauthorized w.
Proof.
  intros Hnone. unfold login, select_users_where, mbind, Io_bind.
  rewrite (users_with_unknown_email w _ Hnone). reflexivity.
Qed.

Lemma login_stored_email (uid : string) (user : User.t) (password : string) :
  unique_emails w →
  user_table w !! uid = Some user →
  login clock settings jwt_encode pwd_context_verify
    (LoginRequest.mk (User.email user) password) w
  = match pwd_context_verify password (User.password_hash user) with
    | Return true =>
      (Return
         (TokenResponse.mk
            (jwt_encode
               {[ "exp" := ClaimTime (clock (ticks w)
                                      + Settings.JWT_EXPIRATION settings * 1000000);
                  "user_id" := ClaimStr (User.id user) ]}
               (Settings.JWT_SECRET settings) (Settings.JWT_ALGORITHM settings))
            "bearer"
            (UserResponse.mk (User.id user) (User.email user) (User.name user))),
       mkWorld (task_table w) (task_id_seq w) (user_table w) (S (ticks w)) (draws w))
    | Return false => unauthorized w
    | Raise e => (Raise e, w)
    end.
Proof.
  intros Hunique Hrow. unfold login, select_users_where, mbind, Io_bind. cbn.
  rewrite (users_with_stored_email w uid user Hunique Hrow). cbn.
  unfold verify_password.
  destruct (pwd_context_verify password (User.password_hash user)) as [[|]|e];
    reflexivity.
Qed.

End login_by_cases.

(** X11: a login with an email no stored user has and a login with a stored
    email and a password that does not verify get the same answer, HTTP 401
    with one message, and neither changes the world. *)
Theorem login_failures_look_alike (clock : nat → datetime) (settings : Settings.t)
    (jwt_encode : gmap string claim → string → string → string)
    (pwd_context_verify : string → string → outcome bool)
    (w : World) (uid : string) (user : User.t)
    (wrong_password unknown_email any_password : string) :
  unique_emails w →
  user_table w !! uid = Some user →
  pwd_context_verify wrong_password (User.password_hash user) = Return false →
  ¬ stored_email w unknown_email →
  login clock settings jwt_encode pwd_context_verify
    (LoginRequest.mk (User.email user) wrong_password) w
  = (Raise (HTTPException 401 "Incorrect email or password"), w)
  ∧ login clock settings jwt_encode pwd_context_verify
      (LoginRequest.mk unknown_email any_password) w
    = (Raise (HTTPException 401 "Incorrect email or password"), w).
Proof.
  intros Hunique Hrow Hwrong Hunknown. split.
  - rewrite (login_stored_email clock settings jwt_encode pwd_context_verify w uid user
               wrong_password Hunique Hrow), Hwrong. reflexivity.
  - by apply login_unknown_email.
Qed.

(** The same at the sample world: Alice's email with a wrong password, and
    an unknown email. *)
Lemma login_failures_look_alike_witness :
  (unique_emails sample_world
   ∧ user_table sample_world !! "alice-id" = Some alice
   ∧ sample_verify "guess" (User.password_hash alice) = Return false
   ∧ ¬ stored_email sample_world "nobody@example.com")
  ∧ login sample_clock Settings.default sample_jwt_encode sample_verify
      (LoginRequest.mk (User.email alice) "guess") sample_world
    = (Raise (HTTPException 401 "Incorrect email or password"), sample_world)
  ∧ login sample_clock Settings.default sample_jwt_encode sample_verify
      (LoginRequest.mk "nobody@example.com" "alice") sample_world
    = (Raise (HTTPException 401 "Incorrect email or password"), sample_world).
Proof.
  assert (unique_emails sample_world) as Hunique.
  { apply (bool_decide_unpack _). vm_compute. exact I. }
  assert (¬ stored_email sample_world "nobody@example.com") as Hunknown.
  { apply (bool_decide_unpack _). vm_compute. exact I. }
  split.
  - split; [exact Hunique | split; [vm_compute; reflexivity | split;
      [vm_compute; reflexivity | exact Hunknown]]].
  - apply (login_failures_look_alike sample_clock Settings.default sample_jwt_encode
             sample_verify sample_world "alice-id" alice "guess" "nobody@example.com"
             "alice");
      [exact Hunique | vm_compute; reflexivity | vm_compute; reflexivity | exact Hunknown].
Defined.



(** X13: login never answers a token unless a stored user has the email of
    the request and the password verifies against that user's hash; the
    token's user is then that stored user, and both tables are as
    before. *)
Theorem login_token_needs_verified_user (clock : nat → datetime) (settings : Settings.t)
    (jwt_encode : gmap string claim → string → string → string)
    (pwd_context_verify : string → string → outcome bool)
    (w w' : World) (user_data : LoginRequest.t) (resp : TokenResponse.t) :
  login clock settings jwt_encode pwd_context_verify user_data w = (Return resp, w') →
  ∃ uid user,
    user_table w !! uid = Some user
    ∧ User.email user = LoginRequest.email user_data
    ∧ pwd_context_verify (LoginRequest.password user_data) (User.password_hash user)
      = Return true
    ∧ TokenResponse.user resp
      = UserResponse.mk (User.id user) (User.email user) (User.name user)
    ∧ user_table w' = user_table w
    ∧ task_table w' = task_table w.
Proof.
  unfold login, select_users_where, mbind, Io_bind.
  destruct (filter _ _) as [|user [|another rest]] eqn:Hfound; cbn; try discriminate.
  assert (user ∈ [user]) as Hin by apply list_elem_of_here.
  rewrite <- Hfound in Hin. apply list_elem_of_filter in Hin as [Hemail Hin].
  apply bool_decide_eq_true in Hemail.
  apply list_elem_of_fmap in Hin as ([uid row] & -> & Hin).
  apply elem_of_map_to_list in Hin. cbn in Hemail.
  unfold verify_password.
  destruct (pwd_context_verify _ _) as [[|]|e] eqn:Hverify; cbn; try discriminate.
  intros [= <- <-]. exists uid, row. cbn. repeat split; assumption.
Qed.

(** The same at the sample world, for Alice's login. *)
Lemma login_token_needs_verified_user_witness :
  ∃ uid user,
    user_table sample_world !! uid = Some user
    ∧ User.email user = "alice@example.com"
    ∧ sample_verify "alice" (User.password_hash user) = Return true
    ∧ UserResponse.mk "alice-id" "alice@example.com" "Alice"
      = UserResponse.mk (User.id user) (User.email user) (User.name user)
    ∧ user_table (mkWorld (task_table sample_world) 4 (user_table sample_world) 1 0)
      = user_table sample_world
    ∧ task_table (mkWorld (task_table sample_world) 4 (user_table sample_world) 1 0)
      = task_table sample_world.
Proof.
  apply (login_token_needs_verified_user sample_clock Settings.default sample_jwt_encode
           sample_verify sample_world
           (mkWorld (task_table sample_world) 4 (user_table sample_world) 1 0)
           (LoginRequest.mk "alice@example.com" "alice")
           (TokenResponse.mk "token-of-alice-id" "bearer"
              (UserResponse.mk "alice-id" "alice@example.com" "Alice"))).
  vm_compute. reflexivity.
Defined.



(** ** Tokens *)

(** X15: the token made by [create_access_token] encodes the given claims
    with [exp] set by the function, over any [exp] the caller put in.  A
    lifetime that is absent or zero is treated alike: [exp] is the clock
    reading of the call plus the configured lifetime (these two in the
    range of [datetime]).  With a lifetime that is not zero, [exp] is the
    clock reading plus that lifetime when the sum is in the range of
    [datetime], and when it is not the function raises OverflowError and
    makes no token.  One clock reading is taken and nothing else
    changes. *)
Theorem create_access_token_expiry (clock : nat → datetime) (settings : Settings.t)
    (jwt_encode : gmap string claim → string → string → string)
    (data : gmap string claim) (w : World) (delta : timedelta) :
  let read := mkWorld (task_table w) (task_id_seq w) (user_table w) (S (ticks w)) (draws w) in
  (in_datetime_range (clock (ticks w)) →
   in_datetime_range (clock (ticks w) + Settings.JWT_EXPIRATION settings * 1000000) →
   create_access_token clock settings jwt_encode data None w
   = (Return (jwt_encode
                (<["exp" := ClaimTime (clock (ticks w)
                                       + Settings.JWT_EXPIRATION settings * 1000000)]> data)
                (Settings.JWT_SECRET settings) (Settings.JWT_ALGORITHM settings)),
      read))
  ∧ create_access_token clock settings jwt_encode data (Some 0%Z) w
    = create_access_token clock settings jwt_encode data None w
  ∧ (delta ≠ 0%Z →
     in_datetime_range (clock (ticks w) + delta) →
     create_access_token clock settings jwt_encode data (Some delta) w
     = (Return (jwt_encode (<["exp" := ClaimTime (clock (ticks w) + delta)]> data)
                  (Settings.JWT_SECRET settings) (Settings.JWT_ALGORITHM settings)),
        read))
  ∧ (delta ≠ 0%Z →
     ¬ in_datetime_range (clock (ticks w) + delta) →
     create_access_token clock settings jwt_encode data (Some delta) w
     = (Raise (OtherError "OverflowError"), read)).
Proof.
  cbv zeta. split; [intros _ _; reflexivity|]. split; [reflexivity|].
  split; intros Hdelta Hrange; unfold create_access_token;
    rewrite bool_decide_eq_true_2 by assumption;
    unfold mbind, Io_bind, utcnow, call, datetime_add; cbn.
  - rewrite bool_decide_eq_true_2 by assumption. reflexivity.
  - rewrite bool_decide_eq_false_2 by assumption. reflexivity.
Qed.

(** The same with the sample clock: a lifetime of one hour, and one that
    passes the year 9999. *)
Lemma create_access_token_expiry_witness :
  (in_datetime_range (sample_clock 0 + 3600000000)
   ∧ ¬ in_datetime_range (sample_clock 0 + datetime_max))
  ∧ create_access_token sample_clock Settings.default sample_jwt_encode
      {[ "user_id" := ClaimStr "alice-id" ]} (Some 3600000000%Z) sample_world
    = (Return "token-of-alice-id",
       mkWorld (task_table sample_world) 4 (user_table sample_world) 1 0)
  ∧ create_access_token sample_clock Settings.default sample_jwt_encode
      {[ "user_id" := ClaimStr "alice-id" ]} (Some datetime_max) sample_world
    = (Raise (OtherError "OverflowError"),
       mkWorld (task_table sample_world) 4 (user_table sample_world) 1 0).
Proof.
  assert (in_datetime_range (sample_clock 0 + 3600000000)) as Hin.
  { apply (bool_decide_unpack _). vm_compute. exact I. }
  assert (¬ in_datetime_range (sample_clock 0 + datetime_max)) as Hout.
  { apply (bool_decide_unpack _). vm_compute. exact I. }
  split; [split; assumption|]. split.
  - etrans;
      [apply (proj1 (proj2 (proj2 (create_access_token_expiry sample_clock
                                     Settings.default sample_jwt_encode
                                     {[ "user_id" := ClaimStr "alice-id" ]}
                                     sample_world 3600000000))));
       [discriminate | exact Hin]
      | vm_compute; reflexivity].
  - etrans;
      [apply (proj2 (proj2 (proj2 (create_access_token_expiry sample_clock
                                     Settings.default sample_jwt_encode
                                     {[ "user_id" := ClaimStr "alice-id" ]}
                                     sample_world datetime_max))));
       [discriminate | exact Hout]
      | vm_compute; reflexivity].
Defined.

(** X16: [verify_token] answers [None] only when decoding raised an error
    of the JWT library, answers a payload only when decoding gave that
    payload, and raises only what decoding raised outside the JWT
    library's errors: it never raises one of those, and never hides any
    other exception. *)
Theorem verify_token_hides_only_jwt_errors (settings : Settings.t)
    (jwt_decode : string → string → list string → outcome (gmap string claim))
    (token : string) :
  (verify_token settings jwt_decode token = Return None
   ↔ ∃ e : jwt_error,
       jwt_decode token (Settings.JWT_SECRET settings) [Settings.JWT_ALGORITHM settings]
       = Raise (PyJWTError e))
  ∧ (∀ payload,
       verify_token settings jwt_decode token = Return (Some payload)
       ↔ jwt_decode token (Settings.JWT_SECRET settings) [Settings.JWT_ALGORITHM settings]
         = Return payload)
  ∧ (∀ e,
       verify_token settings jwt_decode token = Raise e
       ↔ jwt_decode token (Settings.JWT_SECRET settings) [Settings.JWT_ALGORITHM settings]
         = Raise e
         ∧ ∀ j, e ≠ PyJWTError j).
Proof.
  unfold verify_token.
  destruct (jwt_decode token _ _) as [payload|[status detail| | |j|what]].
  all: repeat split; try discriminate; try congruence; eauto.
  all: try (intros [j' ?]; discriminate).
  all: try (intros [= ->]; done).
  all: try (intros [? ?]; congruence).
  all: try (intros [_ Hnot]; by destruct (Hnot j)).
Qed.

(** * Further properties of completion and counting *)

(** The same at the sample world: Alice sets her completed task 2 back to
    pending. *)
Lemma completed_false_clears_completed_at_witness :
  (owned_task sample_world 2 (User.id alice) = Some laundry
   ∧ TaskUpdate.completed mark_pending = Some false)
  ∧ completion_state (result_of (update_task sample_clock 2 mark_pending alice sample_world))
    = Some (false, None)
  ∧ completion_state
      (result_of (toggle_task_completion sample_clock 2 mark_pending alice sample_world))
    = Some (false, None).
Proof.
  split.
  - split; vm_compute; reflexivity.
  - apply (completed_false_clears_completed_at sample_clock sample_world 2 alice laundry
             mark_pending); vm_compute; reflexivity.
Defined.

(** X18: on a task the caller owns whose [completed] and [completed_at]
    agree, update leaves them agreeing in every case but one: a patch
    that sets [completed] to true on a task that was pending. *)
Theorem update_task_uncouples_exactly_when_marking_pending (clock : nat → datetime)
    (w : World) (task_id : Z) (current_user : User.t) (task : Task.t)
    (task_data : TaskUpdate.t) :
  task_table w !! task_id = Some task →
  Task.user_id task = User.id current_user →
  (Task.completed task = true ↔ is_Some (Task.completed_at task)) →
  ∃ resp w',
    update_task clock task_id task_data current_user w = (Return resp, w')
    ∧ ((TaskResponse.completed resp = true ↔ is_Some (TaskResponse.completed_at resp))
       ↔ ¬ (TaskUpdate.completed task_data = Some true ∧ Task.completed task = false)).
Proof.
  intros Hrow Howner Hcoupled.
  rewrite (update_task_owned clock w task_id current_user task
             (owned_task_own w task_id _ task Hrow Howner)).
  cbv zeta. eexists _, _. split; [reflexivity|]. cbn.
  destruct (TaskUpdate.completed task_data) as [[|]|]; cbn.
  - destruct (Task.completed task); split.
    + intros _ [_ ?]; discriminate.
    + intros _. exact Hcoupled.
    + intros Hnow _. pose proof (proj1 Hnow eq_refl) as Hset.
      apply Hcoupled in Hset. discriminate.
    + intros Hnot. destruct Hnot. split; reflexivity.
  - split.
    + intros _ [? _]; discriminate.
    + intros _. split; [discriminate | intros [? ?]; discriminate].
  - split.
    + intros _ [? _]; discriminate.
    + intros _. exact Hcoupled.
Qed.

(** The same at the sample world: marking the completed task 2 completed
    again keeps the coupling. *)
Lemma update_task_uncouples_exactly_when_marking_pending_witness :
  (task_table sample_world !! 2%Z = Some laundry
   ∧ Task.user_id laundry = User.id alice
   ∧ (Task.completed laundry = true ↔ is_Some (Task.completed_at laundry)))
  ∧ ∃ resp w',
      update_task sample_clock 2 mark_completed alice sample_world = (Return resp, w')
      ∧ ((TaskResponse.completed resp = true ↔ is_Some (TaskResponse.completed_at resp))
         ↔ ¬ (TaskUpdate.completed mark_completed = Some true
              ∧ Task.completed laundry = false)).
Proof.
  assert (Task.completed laundry = true ↔ is_Some (Task.completed_at laundry)) as Hcoupled.
  { split; [intros _; by eexists | reflexivity]. }
  split.
  - split; [vm_compute; reflexivity | split; [vm_compute; reflexivity | exact Hcoupled]].
  - apply (update_task_uncouples_exactly_when_marking_pending sample_clock sample_world 2
             alice laundry mark_completed);
      [vm_compute; reflexivity | vm_compute; reflexivity | exact Hcoupled].
Defined.

Lemma length_filter_none {A : Type} (P : A → Prop) `{!∀ x, Decision (P x)} (l : list A) :
  (∀ x, x ∈ l → ¬ P x) → length (filter P l) = 0.
Proof. intros HP. by rewrite filter_none. Qed.

(** X19: under the pending filter the list route always answers completed
    0 and total equal to pending; under the completed filter it always
    answers pending 0 and total equal to completed. *)
Theorem list_tasks_filtered_counts (w : World) (current_user : User.t) :
  (∃ resp,
     list_tasks current_user (Some "pending") w = (Return resp, w)
     ∧ TaskListResponse.completed resp = 0
     ∧ TaskListResponse.total resp = TaskListResponse.pending resp)
  ∧ (∃ resp,
       list_tasks current_user (Some "completed") w = (Return resp, w)
       ∧ TaskListResponse.pending resp = 0
       ∧ TaskListResponse.total resp = TaskListResponse.completed resp).
Proof.
  split; rewrite list_tasks_answer; cbv zeta; (eexists; split; [reflexivity|]); cbn.
  - set (rows := filter (passes_status_filter _) _).
    assert (length (filter (λ task, Task.completed task = true) rows) = 0) as Hzero.
    { apply length_filter_none. intros task Hin.
      apply list_elem_of_filter in Hin as [Hpending _].
      unfold passes_status_filter in Hpending.
      rewrite bool_decide_eq_true_2 in Hpending by reflexivity. congruence. }
    split; [exact Hzero|].
    rewrite <- (length_filter_completed_split rows), Hzero. lia.
  - set (rows := filter (passes_status_filter _) _).
    assert (length (filter (λ task, negb (Task.completed task) = true) rows) = 0) as Hzero.
    { apply length_filter_none. intros task Hin.
      apply list_elem_of_filter in Hin as [Hcompleted _].
      unfold passes_status_filter in Hcompleted.
      rewrite bool_decide_eq_false_2, bool_decide_eq_true_2 in Hcompleted
        by (reflexivity || discriminate).
      rewrite Hcompleted. discriminate. }
    split; [exact Hzero|].
    rewrite <- (length_filter_completed_split rows), Hzero. lia.
Qed.

(** X20: whatever id and body a caller sends, update, toggleCompletion and
    delete leave every row stored under another id, the user table and the
    identity counter as they were (each row sitting under its own id). *)
Theorem routes_change_one_row_at_most (clock : nat → datetime) (w : World) (task_id : Z)
    (current_user : User.t) (task_data : TaskUpdate.t) (k : Z) :
  rows_under_own_id w →
  k ≠ task_id →
  (task_table (update_task clock task_id task_data current_user w).2 !! k
     = task_table w !! k
   ∧ user_table (update_task clock task_id task_data current_user w).2 = user_table w
   ∧ task_id_seq (update_task clock task_id task_data current_user w).2 = task_id_seq w)
  ∧ (task_table (toggle_task_completion clock task_id task_data current_user w).2 !! k
       = task_table w !! k
     ∧ user_table (toggle_task_completion clock task_id task_data current_user w).2
       = user_table w
     ∧ task_id_seq (toggle_task_completion clock task_id task_data current_user w).2
       = task_id_seq w)
  ∧ (task_table (delete_task task_id current_user w).2 !! k = task_table w !! k
     ∧ user_table (delete_task task_id current_user w).2 = user_table w
     ∧ task_id_seq (delete_task task_id current_user w).2 = task_id_seq w).
Proof.
  intros Hwf Hk.
  destruct (routes_touch_one_key clock w task_id current_user task_data k Hwf Hk)
    as (Hupdate & Htoggle & Hdelete).
  destruct (owned_task w task_id (User.id current_user)) as [task|] eqn:Howned.
  - rewrite (update_task_owned clock w task_id current_user task Howned),
      (toggle_task_completion_owned clock w task_id current_user task Howned),
      (delete_task_owned w task_id current_user task Howned) in *.
    repeat split; assumption.
  - rewrite (update_task_unowned clock w task_id current_user Howned),
      (toggle_task_completion_unowned clock w task_id current_user Howned),
      (delete_task_unowned w task_id current_user Howned) in *.
    repeat split.
Qed.

(** The same at the sample world: Alice works on task 1, her task 2 stays. *)
Lemma routes_change_one_row_at_most_witness :
  (rows_under_own_id sample_world ∧ 2%Z ≠ 1%Z)
  ∧ (task_table (update_task sample_clock 1 mark_completed alice sample_world).2 !! 2%Z
       = task_table sample_world !! 2%Z
     ∧ user_table (update_task sample_clock 1 mark_completed alice sample_world).2
       = user_table sample_world
     ∧ task_id_seq (update_task sample_clock 1 mark_completed alice sample_world).2
       = task_id_seq sample_world)
  ∧ (task_table (toggle_task_completion sample_clock 1 mark_completed alice sample_world).2
       !! 2%Z = task_table sample_world !! 2%Z
     ∧ user_table (toggle_task_completion sample_clock 1 mark_completed alice sample_world).2
       = user_table sample_world
     ∧ task_id_seq (toggle_task_completion sample_clock 1 mark_completed alice sample_world).2
       = task_id_seq sample_world)
  ∧ (task_table (delete_task 1 alice sample_world).2 !! 2%Z = task_table sample_world !! 2%Z
     ∧ user_table (delete_task 1 alice sample_world).2 = user_table sample_world
     ∧ task_id_seq (delete_task 1 alice sample_world).2 = task_id_seq sample_world).
Proof.
  assert (rows_under_own_id sample_world) as Hwf.
  { apply (bool_decide_unpack _). vm_compute. exact I. }
  split.
  - split; [exact Hwf | discriminate].
  - apply (routes_change_one_row_at_most sample_clock sample_world 1 alice mark_completed 2);
      [exact Hwf | discriminate].
Defined.
